(** * Mat4FVCOM: the Sphinx configuration module [doc/source/conf.py]

    The repository's only program text is a Sphinx configuration module: a
    straight-line Python module body made of one [import] and fourteen
    assignments.  Sphinx obtains the configuration by executing that body in
    a fresh namespace.  This development embeds

    - the part of CPython's [posixpath] that [os.path.abspath] runs
      ([join], [normpath], [abspath]) together with [dirname], which is used
      to speak about parent directories;
    - a small expression and statement language, just large enough for the
      module body, with its evaluator (names, attributes, calls, list and
      dict displays, [import], assignment);
    - the module body itself, [conf_py], and the loader [load] that runs it.

    Paths are POSIX paths: [os.path] is [posixpath]. *)

From stdpp Require Import gmap strings list fin_maps.
From Stdlib Require Import Ascii.

(** ** Python string operations used by [posixpath] *)

Module pystr.

(** [s.startswith(p)] *)
Fixpoint startswith (p s : string) : bool :=
  match p, s with
  | "", _ => true
  | String _ _, "" => false
  | String a p', String b s' => Ascii.eqb a b && startswith p' s'
  end.

(** [s.endswith("/")] and friends, for a one-character suffix. *)
Fixpoint endswith_char (c : ascii) (s : string) : bool :=
  match s with
  | "" => false
  | String a "" => Ascii.eqb a c
  | String _ r => endswith_char c r
  end.

(** [s.split(c)] for a one-character separator: never the empty list. *)
Fixpoint split (c : ascii) (s : string) : list string :=
  match s with
  | "" => [""]
  | String a r =>
      if Ascii.eqb a c then "" :: split c r
      else match split c r with
           | h :: t => String a h :: t
           | [] => [String a ""]
           end
  end.

(** [c.join(parts)] for a one-character separator. *)
Fixpoint join (c : ascii) (parts : list string) : string :=
  match parts with
  | [] => ""
  | [p] => p
  | p :: ps => p +:+ String c (join c ps)
  end.

(** [c in s] *)
Fixpoint contains (c : ascii) (s : string) : bool :=
  match s with
  | "" => false
  | String a r => Ascii.eqb a c || contains c r
  end.

(** [p in s] *)
Fixpoint contains_str (p s : string) : bool :=
  startswith p s
  || match s with
     | "" => false
     | String _ r => contains_str p r
     end.

(** [c * n] *)
Fixpoint replicate_char (n : nat) (c : ascii) : string :=
  match n with
  | O => ""
  | S k => String c (replicate_char k c)
  end.

(** [s.rfind(c)]: the highest index holding [c], or [-1]. *)
Fixpoint rfind (c : ascii) (s : string) : Z :=
  match s with
  | "" => (-1)%Z
  | String a r =>
      let k := rfind c r in
      if (0 <=? k)%Z then (k + 1)%Z
      else if Ascii.eqb a c then 0%Z else (-1)%Z
  end.

(** [s[:i]] for [0 <= i]. *)
Definition slice_to (i : Z) (s : string) : string :=
  String.substring 0 (Z.to_nat i) s.

(** [s.rstrip(c)] *)
Fixpoint rstrip (c : ascii) (s : string) : string :=
  match s with
  | "" => ""
  | String a r =>
      match rstrip c r with
      | "" => if Ascii.eqb a c then "" else String a ""
      | r' => String a r'
      end
  end.

End pystr.

(** ** [posixpath] *)

Module posixpath.

Definition sep : ascii := "/"%char.

(** [posixpath.join(a, b)] with one trailing component. *)
Definition join (a b : string) : string :=
  if pystr.startswith "/" b then b
  else if String.eqb a "" || pystr.endswith_char sep a then a +:+ b
  else a +:+ "/" +:+ b.

(** The number the variable [initial_slashes] ends up holding: [False]
    and [True] count as [0] and [1]. *)
Definition initial_slashes (path : string) : nat :=
  if pystr.startswith "/" path then
    if pystr.startswith "//" path && negb (pystr.startswith "///" path)
    then 2 else 1
  else 0.

(** One round of the loop over the components. *)
Definition normpath_step (slashes : nat) (new_comps : list string)
    (comp : string) : list string :=
  if String.eqb comp "" || String.eqb comp "." then new_comps
  else if negb (String.eqb comp "..")
          || (Nat.eqb slashes 0 && bool_decide (new_comps = []))
          || (negb (bool_decide (new_comps = []))
              && bool_decide (last new_comps = Some ".."))
       then new_comps ++ [comp]
  else if negb (bool_decide (new_comps = [])) then removelast new_comps
  else new_comps.

Definition normpath (path : string) : string :=
  if String.eqb path "" then "."
  else
    let slashes := initial_slashes path in
    let comps := pystr.split sep path in
    let new_comps := fold_left (normpath_step slashes) comps [] in
    let path := pystr.join sep new_comps in
    let path :=
      if Nat.eqb slashes 0 then path
      else pystr.replicate_char slashes sep +:+ path in
    if String.eqb path "" then "." else path.

(** [posixpath.abspath(path)] in a process whose working directory is
    [cwd] (the value of [os.getcwd()]). *)
Definition abspath (cwd path : string) : string :=
  let path :=
    if negb (pystr.startswith "/" path) then join cwd path else path in
  normpath path.

Definition isabs (s : string) : bool := pystr.startswith "/" s.

(** [posixpath.dirname(p)] *)
Definition dirname (p : string) : string :=
  let i := (pystr.rfind sep p + 1)%Z in
  let head := pystr.slice_to i p in
  if negb (String.eqb head "")
     && negb (String.eqb head
                (pystr.replicate_char (String.length head) sep))
  then pystr.rstrip sep head
  else head.

End posixpath.

(** ** Values, expressions and statements *)

Set Warnings "-register-all".

(** The functions of the standard library the module body can reach. *)
Inductive builtin := Abspath.

Inductive value :=
| VStr (s : string)
| VList (items : list value)
| VDict (entries : list (string * value))
| VModule (name : string)
| VFunction (f : builtin).

Inductive exn :=
| NameError (name : string)
| AttributeError (attr : string)
| TypeError
| ModuleNotFoundError (name : string).

Inductive result (A : Type) :=
| Ok (a : A)
| Raise (e : exn).
Arguments Ok {A} a.
Arguments Raise {A} e.

Definition bind {A B} (r : result A) (k : A -> result B) : result B :=
  match r with
  | Ok a => k a
  | Raise e => Raise e
  end.

Notation "'let*' x := r 'in' k" := (bind r (fun x => k))
  (at level 10, x name, r at level 100, k at level 200).

(** Expressions.  A dict display is kept with string-literal keys, the only
    form the module body uses. *)
Inductive expr :=
| EStr (s : string)
| EList (items : list expr)
| EDict (entries : list (string * expr))
| EName (id : string)
| EAttr (e : expr) (attr : string)
| ECall (f : expr) (args : list expr).

Inductive stmt :=
| SImport (module : string)
| SAssign (target : string) (e : expr).

(** What a load can observe of, and change in, the process: the working
    directory and the cache of imported modules ([sys.modules]).  Of the
    cache only what the module body can tell is kept: which of the modules
    it names are cached.  What else an import pulls in (importing [os] also
    caches [posixpath], [stat] and others) is not tracked. *)
Record world := World {
  getcwd : string;
  sys_modules : gset string
}.

(** The module being executed: its global namespace, and the names stored
    so far, oldest first (one entry per executed store). *)
Record frame := Frame {
  f_globals : gmap string value;
  f_stores : list string
}.

(** [d[k] = v] on an insertion-ordered dict: an existing key keeps its
    place. *)
Fixpoint dict_set (k : string) (v : value) (d : list (string * value))
    : list (string * value) :=
  match d with
  | [] => [(k, v)]
  | (k', v') :: d' =>
      if String.eqb k k' then (k, v) :: d' else (k', v') :: dict_set k v d'
  end.

Fixpoint dict_get (k : string) (d : list (string * value)) : option value :=
  match d with
  | [] => None
  | (k', v') :: d' => if String.eqb k k' then Some v' else dict_get k d'
  end.

Definition getattr (v : value) (attr : string) : result value :=
  match v with
  | VModule "os" =>
      if String.eqb attr "path" then Ok (VModule "posixpath")
      else Raise (AttributeError attr)
  | VModule "posixpath" =>
      if String.eqb attr "abspath" then Ok (VFunction Abspath)
      else Raise (AttributeError attr)
  | _ => Raise (AttributeError attr)
  end.

Definition call (w : world) (f : value) (args : list value) : result value :=
  match f, args with
  | VFunction Abspath, [VStr p] => Ok (VStr (posixpath.abspath (getcwd w) p))
  | _, _ => Raise TypeError
  end.

(** Evaluation reads the world and the namespace and changes neither.
    Operands are evaluated left to right; the first exception wins. *)
Fixpoint eval (w : world) (ns : gmap string value) (e : expr) : result value :=
  match e with
  | EStr s => Ok (VStr s)
  | EList items =>
      let* vs := (fix eval_items (es : list expr) : result (list value) :=
               match es with
               | [] => Ok []
               | e :: es' =>
                   let* v := eval w ns e in
                   let* vs := eval_items es' in Ok (v :: vs)
               end) items in
      Ok (VList vs)
  | EDict entries =>
      let* d := (fix eval_entries (es : list (string * expr))
                (d : list (string * value)) : result (list (string * value)) :=
              match es with
              | [] => Ok d
              | (k, e) :: es' =>
                  let* v := eval w ns e in eval_entries es' (dict_set k v d)
              end) entries [] in
      Ok (VDict d)
  | EName id =>
      match ns !! id with
      | Some v => Ok v
      | None => Raise (NameError id)
      end
  | EAttr e attr => let* v := eval w ns e in getattr v attr
  | ECall f args =>
      let* fv := eval w ns f in
      let* vs := (fix eval_args (es : list expr) : result (list value) :=
               match es with
               | [] => Ok []
               | e :: es' =>
                   let* v := eval w ns e in
                   let* vs := eval_args es' in Ok (v :: vs)
               end) args in
      call w fv vs
  end.

Definition store (x : string) (v : value) (fr : frame) : frame :=
  {| f_globals := <[x := v]> (f_globals fr);
     f_stores := f_stores fr ++ [x] |}.

(** [import m]: a cached module is reused; [os] can always be imported and
    is then cached; the model knows no other module, and does not track
    the further modules that importing [os] caches. *)
Definition import_module (w : world) (m : string) : result value * world :=
  if bool_decide (m ∈ sys_modules w) then (Ok (VModule m), w)
  else if String.eqb m "os" then
    (Ok (VModule m),
     {| getcwd := getcwd w; sys_modules := {[m]} ∪ sys_modules w |})
  else (Raise (ModuleNotFoundError m), w).

Definition exec_stmt (w : world) (fr : frame) (s : stmt)
    : result frame * world :=
  match s with
  | SImport m =>
      match import_module w m with
      | (Ok v, w') => (Ok (store m v fr), w')
      | (Raise e, w') => (Raise e, w')
      end
  | SAssign x e =>
      match eval w (f_globals fr) e with
      | Ok v => (Ok (store x v fr), w)
      | Raise e => (Raise e, w)
      end
  end.

(** A block runs its statements in order and stops at the first exception. *)
Fixpoint exec_block (w : world) (fr : frame) (body : list stmt)
    : result frame * world :=
  match body with
  | [] => (Ok fr, w)
  | s :: rest =>
      match exec_stmt w fr s with
      | (Ok fr', w') => exec_block w' fr' rest
      | (Raise e, w') => (Raise e, w')
      end
  end.

(** ** The module body of [doc/source/conf.py] *)

Definition conf_py : list stmt :=
  [ SImport "os";
    SAssign "project" (EStr "Mat4FVCOM");
    SAssign "copyright" (EStr "2025, li12242");
    SAssign "author" (EStr "li12242");
    SAssign "release" (EStr "v1");
    SAssign "matlab_src_dir"
      (ECall (EAttr (EAttr (EName "os") "path") "abspath")
         [EStr "../../src"]);
    SAssign "extensions"
      (EList [ EStr "sphinxcontrib.matlab";
               EStr "sphinx.ext.autodoc";
               EStr "sphinx.ext.mathjax";
               EStr "myst_parser" ]);
    SAssign "primary_domain" (EStr "mat");
    SAssign "source_suffix"
      (EDict [ (".rst", EStr "restructuredtext");
               (".txt", EStr "restructuredtext");
               (".md", EStr "markdown") ]);
    SAssign "mathjax_path" (EStr "es5/tex-chtml.js");
    SAssign "templates_path" (EList [EStr "_templates"]);
    SAssign "exclude_patterns" (EList []);
    SAssign "language" (EStr "zh_CN");
    SAssign "html_theme" (EStr "sphinx_rtd_theme");
    SAssign "html_static_path" (EList [EStr "_static"]) ].

Definition empty_frame : frame := {| f_globals := ∅; f_stores := [] |}.

(** Loading executes the module body in a fresh namespace. *)
Definition load (w : world) : result frame * world :=
  exec_block w empty_frame conf_py.

(** The fields of the configuration record, in the order of the data
    model. *)
Definition config_fields : list string :=
  [ "project"; "copyright"; "author"; "release"; "matlab_src_dir";
    "extensions"; "primary_domain"; "source_suffix"; "mathjax_path";
    "templates_path"; "exclude_patterns"; "language"; "html_theme";
    "html_static_path" ].

(** The record a load returns: the field's value, if the load succeeded and
    bound it. *)
Definition field (w : world) (name : string) : option value :=
  match load w with
  | (Ok fr, _) => f_globals fr !! name
  | (Raise _, _) => None
  end.

(** A process that has imported nothing yet, running in [cwd]. *)
Definition fresh (cwd : string) : world :=
  {| getcwd := cwd; sys_modules := ∅ |}.

(** The name a statement binds, and the names a block binds, in order. *)
Definition target (s : stmt) : string :=
  match s with
  | SImport m => m
  | SAssign x _ => x
  end.

Definition targets (body : list stmt) : list string := map target body.

(** How many times a name was stored. *)
Definition store_count (fr : frame) (x : string) : nat :=
  count_occ String.string_dec (f_stores fr) x.

(** Sphinx takes a script path for a full URI when it holds [://], and for
    a path below the static directory otherwise. *)
Definition is_full_uri (s : string) : bool := pystr.contains_str "://" s.

(** Expressions built from string literals, list displays and dict displays
    only: no name, attribute or call. *)
Fixpoint literal (e : expr) : bool :=
  match e with
  | EStr _ => true
  | EList items =>
      (fix all (es : list expr) : bool :=
         match es with
         | [] => true
         | e :: es' => literal e && all es'
         end) items
  | EDict entries =>
      (fix all (es : list (string * expr)) : bool :=
         match es with
         | [] => true
         | (_, e) :: es' => literal e && all es'
         end) entries
  | EName _ | EAttr _ _ | ECall _ _ => false
  end.

(** Assignments of a literal expression. *)
Definition literal_stmt (s : stmt) : bool :=
  match s with
  | SImport _ => false
  | SAssign _ e => literal e
  end.

Definition is_assign (s : stmt) : bool :=
  match s with
  | SImport _ => false
  | SAssign _ _ => true
  end.

(** ** Access to the record after the load *)

(** Changes made in place to the object a name is bound to: [x.append(v)]
    and [x[k] = v].  The module body binds every list and dict it creates
    to one name only, so a change of the object is a change of what that
    one name holds.  No store to the name takes place. *)
Inductive mutation :=
| MAppend (name : string) (v : value)
| MSetItem (name : string) (key : string) (v : value).

Definition replace_object (x : string) (v : value) (fr : frame) : frame :=
  {| f_globals := <[x := v]> (f_globals fr); f_stores := f_stores fr |}.

(** Only a list has [append]; only a dict takes a string as the key of an
    item assignment. *)
Definition mutate (fr : frame) (m : mutation) : result frame :=
  match m with
  | MAppend x v =>
      match f_globals fr !! x with
      | None => Raise (NameError x)
      | Some (VList items) => Ok (replace_object x (VList (items ++ [v])) fr)
      | Some _ => Raise (AttributeError "append")
      end
  | MSetItem x k v =>
      match f_globals fr !! x with
      | None => Raise (NameError x)
      | Some (VDict d) => Ok (replace_object x (VDict (dict_set k v d)) fr)
      | Some _ => Raise TypeError
      end
  end.

(** A frame is read-only when no change in place goes through and alters
    what a name holds. *)
Definition read_only (fr : frame) : Prop :=
  ∀ m fr', mutate fr m = Ok fr' → f_globals fr' = f_globals fr.

(** The claim that a load stores every field exactly once and returns a
    record that is read-only. *)
Definition stored_once_and_read_only (w : world) : Prop :=
  ∃ fr, (load w).1 = Ok fr
    ∧ Forall (λ x, store_count fr x = 1) config_fields
    ∧ read_only fr.

(** The fields by the kind of value the module body gives them. *)
Definition string_fields : list string :=
  [ "project"; "copyright"; "author"; "release"; "matlab_src_dir";
    "primary_domain"; "mathjax_path"; "language"; "html_theme" ].

Definition list_fields : list string :=
  [ "extensions"; "templates_path"; "exclude_patterns"; "html_static_path" ].

Definition holds_str (o : option value) : bool :=
  match o with Some (VStr _) => true | _ => false end.

Definition holds_list (o : option value) : bool :=
  match o with Some (VList _) => true | _ => false end.

Definition holds_dict (o : option value) : bool :=
  match o with Some (VDict _) => true | _ => false end.

(** ** Directories as component lists

    An absolute, normalised directory is one or two slashes followed by
    names joined with slashes; a name is a component that is not empty, not
    [.], not [..] and holds no slash. *)

Definition is_name (comp : string) : bool :=
  negb (String.eqb comp "") && negb (String.eqb comp ".")
  && negb (String.eqb comp "..") && negb (pystr.contains posixpath.sep comp).

Definition render (slashes : nat) (comps : list string) : string :=
  pystr.replicate_char slashes posixpath.sep +:+ pystr.join posixpath.sep comps.

(** What the specification asks of [matlab_src_dir], in the words of
    [posixpath]: the parent of the parent of the directory holding the
    configuration file, joined with [src]. *)
Definition spec_matlab_src_dir (conf_dir : string) : string :=
  posixpath.join (posixpath.dirname (posixpath.dirname conf_dir)) "src".

(** The claim that a load in world [w] of a configuration file that lives
    in [conf_dir] leaves that path in [matlab_src_dir]. *)
Definition matlab_src_dir_follows_conf_dir (w : world) (conf_dir : string)
    : Prop :=
  field w "matlab_src_dir" = Some (VStr (spec_matlab_src_dir conf_dir)).

(** * Examples *)

Example abspath_ex1 :
  posixpath.abspath "/home/u/Mat4FVCOM/doc/source" "../../src"
  = "/home/u/Mat4FVCOM/src".
Proof. reflexivity. Qed.

Example abspath_ex2 : posixpath.abspath "/tmp" "../../src" = "/src".
Proof. reflexivity. Qed.

Example abspath_ex3 : posixpath.abspath "//a/b/c" "../../src" = "//a/src".
Proof. reflexivity. Qed.

Example dirname_ex1 : posixpath.dirname "/home/u/doc" = "/home/u".
Proof. reflexivity. Qed.

Example dirname_ex2 : posixpath.dirname "/home" = "/".
Proof. reflexivity. Qed.

Example dirname_ex3 : posixpath.dirname "/" = "/".
Proof. reflexivity. Qed.

Example dirname_ex4 : posixpath.dirname "a//b" = "a".
Proof. reflexivity. Qed.


(** * Facts about the string operations *)

Section string_facts.
Implicit Types (s t p q : string) (a c : ascii) (cs : list string).

#[local] Arguments String.append !_ _ / : simpl nomatch.

Lemma sapp_nil_r s : s +:+ "" = s.
Proof. induction s as [|a s IH]; [reflexivity|]. cbn. by rewrite IH. Qed.

Lemma sapp_assoc s t p : (s +:+ t) +:+ p = s +:+ t +:+ p.
Proof. induction s as [|a s IH]; [reflexivity|]. cbn. by rewrite IH. Qed.

Lemma sapp_length s t :
  String.length (s +:+ t) = String.length s + String.length t.
Proof. induction s as [|a s IH]; [reflexivity|]. cbn. by rewrite IH. Qed.

Lemma startswith_char c b s :
  pystr.startswith (String c "") (String b s) = Ascii.eqb c b.
Proof. cbn [pystr.startswith]. apply andb_true_r. Qed.

Lemma contains_app c s t :
  pystr.contains c (s +:+ t) = pystr.contains c s || pystr.contains c t.
Proof.
  induction s as [|a s IH]; [reflexivity|].
  cbn. rewrite IH. by rewrite orb_assoc.
Qed.

Lemma split_not_nil c s : pystr.split c s ≠ [].
Proof.
  destruct s as [|a s]; cbn; [discriminate|].
  destruct (Ascii.eqb a c); [discriminate|].
  by destruct (pystr.split c s).
Qed.

Lemma split_no_sep c s : pystr.contains c s = false → pystr.split c s = [s].
Proof.
  induction s as [|a s IH]; [reflexivity|].
  cbn. intros [Ha Hs]%orb_false_iff. rewrite Ha, (IH Hs). reflexivity.
Qed.

Lemma split_app_sep c s t :
  pystr.split c (s +:+ String c t) = pystr.split c s ++ pystr.split c t.
Proof.
  induction s as [|a s IH]; cbn.
  - by rewrite Ascii.eqb_refl.
  - destruct (Ascii.eqb a c); [by rewrite IH|].
    rewrite IH. pose proof (split_not_nil c s).
    by destruct (pystr.split c s).
Qed.

Lemma split_parts_no_sep c s :
  Forall (λ x, pystr.contains c x = false) (pystr.split c s).
Proof.
  induction s as [|a s IH]; cbn; [by repeat constructor|].
  destruct (Ascii.eqb a c) eqn:Ha; [by constructor|].
  destruct (pystr.split c s) as [|h t]; inversion IH; subst;
    constructor; cbn; try rewrite Ha; auto.
Qed.

Lemma join_snoc c cs x :
  pystr.join c (cs ++ [x])
  = match cs with [] => x | _ => pystr.join c cs +:+ String c x end.
Proof.
  induction cs as [|y cs IH]; [reflexivity|].
  destruct cs as [|z cs]; [reflexivity|].
  change (pystr.join c ((y :: z :: cs) ++ [x]))
    with (y +:+ String c (pystr.join c ((z :: cs) ++ [x]))).
  rewrite IH.
  change (pystr.join c (y :: z :: cs))
    with (y +:+ String c (pystr.join c (z :: cs))).
  by rewrite sapp_assoc.
Qed.

Lemma split_join c cs :
  cs ≠ [] → Forall (λ x, pystr.contains c x = false) cs →
  pystr.split c (pystr.join c cs) = cs.
Proof.
  induction cs as [|x cs IH]; [done|]. intros _ Hall.
  inversion Hall as [|? ? Hx Hcs]; subst.
  destruct cs as [|y cs]; [by apply split_no_sep|].
  change (pystr.join c (x :: y :: cs))
    with (x +:+ String c (pystr.join c (y :: cs))).
  rewrite split_app_sep, (split_no_sep _ _ Hx), IH; done.
Qed.

Lemma rfind_no_sep c s : pystr.contains c s = false → pystr.rfind c s = (-1)%Z.
Proof.
  induction s as [|a s IH]; [reflexivity|].
  cbn. intros [Ha Hs]%orb_false_iff. by rewrite (IH Hs), Ha.
Qed.

Lemma rfind_last_sep c p s :
  pystr.contains c s = false →
  pystr.rfind c (p +:+ String c s) = Z.of_nat (String.length p).
Proof.
  intros Hs. induction p as [|a p IH].
  - cbn. by rewrite (rfind_no_sep _ _ Hs), Ascii.eqb_refl.
  - cbn [String.append pystr.rfind String.length]. rewrite IH.
    destruct (Z.leb_spec 0 (Z.of_nat (String.length p))); lia.
Qed.

Lemma substring_prefix p q :
  String.substring 0 (String.length p) (p +:+ q) = p.
Proof.
  induction p as [|a p IH]; cbn.
  - by destruct q.
  - by rewrite IH.
Qed.

Lemma rstrip_ends_other c p a :
  a ≠ c → pystr.rstrip c (p +:+ String a "") = p +:+ String a "".
Proof.
  intros Ha. induction p as [|b p IH]; cbn.
  - by apply Ascii.eqb_neq in Ha as ->.
  - rewrite IH. by destruct p.
Qed.

Lemma rstrip_app_sep c s : pystr.rstrip c (s +:+ String c "") = pystr.rstrip c s.
Proof.
  induction s as [|a s IH]; cbn.
  - by rewrite Ascii.eqb_refl.
  - by rewrite IH.
Qed.

Lemma endswith_snoc c p a :
  pystr.endswith_char c (p +:+ String a "") = Ascii.eqb a c.
Proof.
  induction p as [|b p IH]; [reflexivity|].
  cbn [String.append pystr.endswith_char]. rewrite IH. by destruct p.
Qed.

(** A string that holds no [c] and is not empty ends in another
    character. *)
Lemma no_sep_snoc c s :
  s ≠ "" → pystr.contains c s = false →
  ∃ p a, s = p +:+ String a "" ∧ a ≠ c ∧ pystr.contains c p = false.
Proof.
  induction s as [|b s IH]; [done|]. intros _.
  cbn. intros [Hb Hs]%orb_false_iff.
  destruct s as [|b' s].
  - exists "", b. split; [done|]. split; [by apply Ascii.eqb_neq|done].
  - destruct IH as (p & a & Heq & Ha & Hp); [done|done|].
    exists (String b p), a. rewrite Heq. cbn. by rewrite Hb, Hp.
Qed.

Lemma replicate_char_contains_other n c p a q :
  a ≠ c → pystr.replicate_char n c ≠ p +:+ String a q.
Proof.
  intros Ha. revert p. induction n as [|n IH]; intros [|b p]; cbn;
    try discriminate.
  - intros [=]. congruence.
  - intros [= _ H]. by eapply IH.
Qed.

Lemma replicate_char_snoc n c :
  pystr.replicate_char (S n) c = pystr.replicate_char n c +:+ String c "".
Proof. induction n as [|n IH]; [reflexivity|]. cbn in *. by rewrite IH. Qed.

Lemma replicate_char_length n c :
  String.length (pystr.replicate_char n c) = n.
Proof. induction n as [|n IH]; [reflexivity|]. cbn. by rewrite IH. Qed.

End string_facts.

(** * Facts about [posixpath] on normalised absolute directories *)

Section path_facts.
Import posixpath.
Implicit Types (s t p q : string) (a : ascii) (cs acc : list string)
  (k : nat).

#[local] Arguments String.append !_ _ / : simpl nomatch.

Local Abbreviation names := (Forall (λ x, is_name x = true)).
Local Abbreviation no_sep := (λ x, pystr.contains sep x = false).

Lemma is_name_spec s :
  is_name s = true ↔ s ≠ "" ∧ s ≠ "." ∧ s ≠ ".." ∧ pystr.contains sep s = false.
Proof.
  unfold is_name.
  rewrite !andb_true_iff, !negb_true_iff, !String.eqb_neq. tauto.
Qed.

Lemma names_no_sep cs : names cs → Forall no_sep cs.
Proof.
intros Hall. eapply Forall_impl; [exact Hall|].
by intros x (_ & _ & _ & ?)%is_name_spec.
Qed.

Lemma names_removelast cs : names cs → names (removelast cs).
Proof.
  induction cs as [|x cs IH]; [done|]. intros Hall.
  inversion Hall; subst. destruct cs; [constructor|].
  constructor; [done|]. by apply IH.
Qed.

Lemma names_last_not_dotdot cs : names cs → last cs ≠ Some "..".
Proof.
  intros Hall Hlast%last_Some_elem_of.
  rewrite Forall_forall in Hall. by specialize (Hall _ Hlast).
Qed.

(** The loop of [normpath] on a rooted path. *)

Lemma normpath_step_name k acc s :
  is_name s = true → normpath_step k acc s = acc ++ [s].
Proof.
  intros (H1 & H2 & H3 & _)%is_name_spec. unfold normpath_step.
  apply String.eqb_neq in H1, H2, H3. by rewrite H1, H2, H3.
Qed.

Lemma normpath_step_dotdot k acc :
  k ≠ 0 → names acc → normpath_step k acc ".." = removelast acc.
Proof.
  intros Hk Hacc. unfold normpath_step. cbn [String.eqb Ascii.eqb Bool.eqb orb negb].
  apply Nat.eqb_neq in Hk as ->. cbn [andb orb].
  rewrite (bool_decide_eq_false_2 (last acc = Some ".."))
    by by apply names_last_not_dotdot.
  rewrite andb_false_r. by destruct acc.
Qed.

Lemma normpath_step_names k acc s :
  k ≠ 0 → pystr.contains sep s = false → names acc →
  names (normpath_step k acc s).
Proof.
  intros Hk Hs Hacc.
  destruct (String.eqb_spec s "") as [->|H1]; [done|].
  destruct (String.eqb_spec s ".") as [->|H2]; [done|].
  destruct (String.eqb_spec s "..") as [->|H3].
  - rewrite normpath_step_dotdot by done. by apply names_removelast.
  - assert (is_name s = true) as Hn by by apply is_name_spec.
    rewrite normpath_step_name by done.
    apply Forall_app. split; [done|by constructor].
Qed.

Lemma normpath_loop_names k acc cs :
  k ≠ 0 → Forall no_sep cs → names acc →
  names (fold_left (normpath_step k) cs acc).
Proof.
  intros Hk Hcs. revert acc.
  induction Hcs as [|x cs Hx Hcs IH]; intros acc Hacc; [done|].
  cbn. apply IH. by apply normpath_step_names.
Qed.

Lemma normpath_loop_on_names k acc cs :
  names cs → fold_left (normpath_step k) cs acc = acc ++ cs.
Proof.
  intros Hcs. revert acc.
  induction Hcs as [|x cs Hx Hcs IH]; intros acc; cbn.
  - by rewrite app_nil_r.
  - rewrite normpath_step_name by done. rewrite IH.
    by rewrite <- app_assoc.
Qed.

Lemma normpath_loop_empties k n acc cs :
  fold_left (normpath_step k) (replicate n "" ++ cs) acc
  = fold_left (normpath_step k) cs acc.
Proof. induction n as [|n IH]; [done|]. cbn. apply IH. Qed.

Lemma split_leading_seps n s :
  pystr.split sep (pystr.replicate_char n sep +:+ s)
  = replicate n "" ++ pystr.split sep s.
Proof. induction n as [|n IH]; [done|]. cbn. by rewrite IH. Qed.

(** Shape of a joined list of names. *)

Lemma join_names_last cs :
  cs ≠ [] → names cs →
  ∃ p a, pystr.join sep cs = p +:+ String a "" ∧ a ≠ sep.
Proof.
  intros Hne Hall.
  destruct (exists_last Hne) as (cs' & x & ->).
  apply Forall_app in Hall as [_ Hx]. inversion Hx as [|? ? Hn _]; subst.
  apply is_name_spec in Hn as (Hn & _ & _ & Hsep).
  destruct (no_sep_snoc sep x Hn Hsep) as (p & a & -> & Ha & _).
  rewrite join_snoc. destruct cs' as [|y cs'].
  - by exists p, a.
  - exists (pystr.join sep (y :: cs') +:+ String sep p), a.
    split; [|done]. by rewrite sapp_assoc.
Qed.

Lemma join_names_first cs t :
  cs ≠ [] → names cs →
  pystr.startswith "/" (pystr.join sep cs +:+ t) = false.
Proof.
  intros Hne Hall. destruct cs as [|x cs]; [done|].
  inversion Hall as [|? ? Hn _]; subst.
  apply is_name_spec in Hn as (Hn & _ & _ & Hsep).
  destruct x as [|b x]; [done|]. cbn in Hsep.
  apply orb_false_iff in Hsep as [Hb%Ascii.eqb_neq _].
  assert (∀ r, pystr.startswith "/" (String b r) = false) as Hgo.
  { intros r. rewrite startswith_char. apply Ascii.eqb_neq.
    intros <-. by apply Hb. }
  destruct cs; cbn [pystr.join String.append]; apply Hgo.
Qed.

Lemma initial_slashes_render k t :
  k = 1 ∨ k = 2 → pystr.startswith "/" t = false →
  initial_slashes (pystr.replicate_char k sep +:+ t) = k.
Proof.
  unfold initial_slashes.
  intros [-> | ->] Ht; (destruct t as [|b t]; [done|]);
    rewrite startswith_char in Ht;
    cbn [pystr.replicate_char String.append pystr.startswith];
    change (Ascii.eqb "/" sep) with true; rewrite Ht; reflexivity.
Qed.

Lemma render_not_empty k cs : k ≠ 0 → String.eqb (render k cs) "" = false.
Proof. by destruct k. Qed.

Lemma render_isabs k cs : k ≠ 0 → isabs (render k cs) = true.
Proof. by destruct k. Qed.

Lemma render_endswith_sep k cs :
  k ≠ 0 → names cs →
  pystr.endswith_char sep (render k cs) = bool_decide (cs = []).
Proof.
  intros Hk Hall. unfold render. destruct cs as [|x cs].
  - destruct k as [|k]; [done|].
    rewrite sapp_nil_r, replicate_char_snoc, endswith_snoc. done.
  - destruct (join_names_last (x :: cs)) as (p & a & -> & Ha); [done..|].
    rewrite <- sapp_assoc, endswith_snoc.
    by apply Ascii.eqb_neq.
Qed.

(** [join] of a normalised absolute directory with a relative path. *)
Lemma join_render k cs t :
  k ≠ 0 → names cs → pystr.startswith "/" t = false →
  join (render k cs) t
  = pystr.replicate_char k sep
    +:+ match cs with
        | [] => t
        | _ => pystr.join sep cs +:+ String sep t
        end.
Proof.
  intros Hk Hall Ht. unfold join.
  rewrite Ht, render_not_empty, render_endswith_sep by done.
  cbn [orb]. unfold render. destruct cs as [|x cs].
  - rewrite bool_decide_eq_true_2 by done. cbn [pystr.join].
    by rewrite sapp_nil_r.
  - rewrite bool_decide_eq_false_2 by done. by rewrite sapp_assoc.
Qed.

Lemma name_not_startswith_sep s :
  is_name s = true → pystr.startswith "/" s = false.
Proof.
  intros Hs. pose proof (join_names_first [s] "") as H.
  cbn [pystr.join] in H. rewrite sapp_nil_r in H. apply H; [done|].
  by constructor.
Qed.

Lemma join_render_name k cs s :
  k ≠ 0 → names cs → is_name s = true →
  join (render k cs) s = render k (cs ++ [s]).
Proof.
  intros Hk Hall Hs.
  rewrite join_render by auto using name_not_startswith_sep.
  unfold render. by rewrite join_snoc.
Qed.

(** [abspath] of [../../src] in a normalised absolute directory drops the
    last two names, as far as there are any, and appends [src]. *)
Lemma abspath_render k cs :
  k = 1 ∨ k = 2 → names cs →
  abspath (render k cs) "../../src"
  = render k (removelast (removelast cs) ++ ["src"]).
Proof.
  intros Hk Hall. assert (k ≠ 0) as Hk0 by lia.
  unfold abspath. change (pystr.startswith "/" "../../src") with false.
  cbn [negb]. rewrite join_render by done.
  set (t := match cs with
            | [] => "../../src"
            | _ => pystr.join sep cs +:+ String sep "../../src"
            end).
  assert (pystr.startswith "/" t = false) as Ht.
  { subst t. destruct cs; [done|]. by apply join_names_first. }
  assert (pystr.split sep t = cs ++ [".."; ".."; "src"]) as Hsplit.
  { subst t. destruct cs as [|x cs]; [done|].
    rewrite split_app_sep, split_join by auto using names_no_sep. done. }
  unfold normpath.
  replace (String.eqb (pystr.replicate_char k sep +:+ t) "") with false
    by by destruct k.
  rewrite initial_slashes_render, split_leading_seps by done.
  rewrite normpath_loop_empties, Hsplit, fold_left_app.
  rewrite (normpath_loop_on_names k [] cs) by done. cbn [fold_left app].
  rewrite (normpath_step_dotdot k cs) by done.
  rewrite normpath_step_dotdot by auto using names_removelast.
  rewrite normpath_step_name by done.
  apply Nat.eqb_neq in Hk0 as ->. fold (render k (removelast (removelast cs) ++ ["src"])).
  by rewrite render_not_empty by lia.
Qed.

(** [dirname] of a normalised absolute directory drops the last name. *)
Lemma dirname_render k cs :
  k ≠ 0 → names cs → dirname (render k cs) = render k (removelast cs).
Proof.
  intros Hk Hall. destruct k as [|k]; [done|].
  destruct (decide (cs = [])) as [->|Hne].
  - cbn [removelast]. unfold render. cbn [pystr.join]. rewrite !sapp_nil_r.
    unfold dirname.
    assert (pystr.slice_to (pystr.rfind sep (pystr.replicate_char (S k) sep) + 1)
              (pystr.replicate_char (S k) sep)
            = pystr.replicate_char (S k) sep) as ->.
    { rewrite replicate_char_snoc at 1. rewrite rfind_last_sep by done.
      rewrite replicate_char_length. unfold pystr.slice_to.
      replace (Z.to_nat (Z.of_nat k + 1)) with
        (String.length (pystr.replicate_char (S k) sep))
        by (rewrite replicate_char_length; lia).
      rewrite <- (sapp_nil_r (pystr.replicate_char (S k) sep)) at 2.
      apply substring_prefix. }
    rewrite replicate_char_length, String.eqb_refl. by rewrite andb_false_r.
  - destruct (exists_last Hne) as (cs' & x & ->).
    rewrite removelast_last.
    apply Forall_app in Hall as [Hcs' Hx]. inversion Hx as [|? ? Hn _]; subst.
    pose proof Hn as (Hx0 & _ & _ & Hxsep)%is_name_spec.
    (* the path is [pre +:+ "/" +:+ x], and [x] holds no slash *)
    assert (∃ pre, render (S k) (cs' ++ [x]) = pre +:+ String sep x
                   ∧ (cs' = [] → pre = pystr.replicate_char k sep)
                   ∧ (cs' ≠ [] → pre = render (S k) cs')) as (pre & -> & H0 & H1).
    { unfold render. rewrite join_snoc. destruct cs' as [|y cs'].
      - exists (pystr.replicate_char k sep). split; [|done].
        by rewrite replicate_char_snoc, sapp_assoc.
      - eexists. split; [by rewrite <- sapp_assoc|done]. }
    unfold dirname. rewrite rfind_last_sep by done.
    assert (pystr.slice_to (Z.of_nat (String.length pre) + 1)
              (pre +:+ String sep x) = pre +:+ String sep "") as ->.
    { unfold pystr.slice_to.
      replace (Z.to_nat (Z.of_nat (String.length pre) + 1))
        with (String.length (pre +:+ String sep ""))
        by (rewrite sapp_length; cbn; lia).
      replace (pre +:+ String sep x) with ((pre +:+ String sep "") +:+ x)
        by by rewrite sapp_assoc.
      apply substring_prefix. }
    replace (String.eqb (pre +:+ String sep "") "") with false
      by by destruct pre.
    cbn [negb andb]. destruct cs' as [|y cs'].
    + rewrite H0 by done. rewrite <- replicate_char_snoc.
      rewrite replicate_char_length, String.eqb_refl. cbn [negb].
      unfold render. cbn [pystr.join]. by rewrite sapp_nil_r.
    + rewrite H1 by done.
      destruct (join_names_last (y :: cs')) as (p & a & Hj & Ha); [done..|].
      assert (render (S k) (y :: cs')
              = (pystr.replicate_char (S k) sep +:+ p) +:+ String a "") as ->.
      { unfold render. by rewrite Hj, sapp_assoc. }
      destruct (String.eqb_spec
        (((pystr.replicate_char (S k) sep +:+ p) +:+ String a "")
           +:+ String sep "")
        (pystr.replicate_char
           (String.length
              (((pystr.replicate_char (S k) sep +:+ p) +:+ String a "")
                 +:+ String sep "")) sep)) as [Heq|_].
      { symmetry in Heq. rewrite sapp_assoc in Heq.
        by apply replicate_char_contains_other in Heq. }
      cbn [negb]. rewrite rstrip_app_sep. by apply rstrip_ends_other.
Qed.

(** The specification's path on a normalised absolute directory. *)
Lemma spec_matlab_src_dir_render k cs :
  k ≠ 0 → names cs →
  spec_matlab_src_dir (render k cs)
  = render k (removelast (removelast cs) ++ ["src"]).
Proof.
  intros Hk Hall. unfold spec_matlab_src_dir.
  rewrite !dirname_render by auto using names_removelast.
  apply join_render_name; auto using names_removelast.
Qed.

(** Every absolute path that [normpath] leaves alone is one or two slashes
    followed by names. *)
Lemma normal_absolute_render s :
  isabs s = true → normpath s = s →
  ∃ k cs, (k = 1 ∨ k = 2) ∧ names cs ∧ s = render k cs.
Proof.
  intros Habs Hnorm.
  assert (initial_slashes s = 1 ∨ initial_slashes s = 2) as Hk.
  { unfold initial_slashes. unfold isabs in Habs. rewrite Habs.
    destruct (_ && _); auto. }
  exists (initial_slashes s),
    (fold_left (normpath_step (initial_slashes s)) (pystr.split sep s) []).
  split; [done|]. split.
  - apply normpath_loop_names; [lia|apply split_parts_no_sep|constructor].
  - unfold normpath in Hnorm. destruct (String.eqb_spec s "") as [->|_]; [done|].
    replace (initial_slashes s =? 0) with false in Hnorm
      by (symmetry; apply Nat.eqb_neq; lia).
    fold (render (initial_slashes s)
            (fold_left (normpath_step (initial_slashes s)) (pystr.split sep s) []))
      in Hnorm.
    rewrite render_not_empty in Hnorm by lia. done.
Qed.

End path_facts.

(** * Facts about the evaluator and the loader *)

Section exec_facts.
Implicit Types (w : world) (fr : frame) (body : list stmt) (x : string).

Lemma import_module_getcwd w m : getcwd (import_module w m).2 = getcwd w.
Proof.
  unfold import_module. destruct (bool_decide _); [done|].
  by destruct (String.eqb m "os").
Qed.

Lemma exec_stmt_getcwd w fr s : getcwd (exec_stmt w fr s).2 = getcwd w.
Proof.
  destruct s as [m|x e]; cbn.
  - pose proof (import_module_getcwd w m) as H.
    by destruct (import_module w m) as [[v|e] w'].
  - by destruct (eval w (f_globals fr) e).
Qed.

(** No statement changes the working directory. *)
Lemma exec_block_getcwd w fr body : getcwd (exec_block w fr body).2 = getcwd w.
Proof.
  revert w fr. induction body as [|s body IH]; intros w fr; [done|].
  cbn. pose proof (exec_stmt_getcwd w fr s) as H.
  destruct (exec_stmt w fr s) as [[fr'|e] w']; [|done].
  rewrite IH. done.
Qed.

(** A statement that succeeds stores its target, once, and nothing else. *)
Lemma exec_stmt_store w fr s fr' w' :
  exec_stmt w fr s = (Ok fr', w') →
  ∃ v, fr' = store (target s) v fr.
Proof.
  destruct s as [m|x e]; cbn.
  - destruct (import_module w m) as [[v|e] w'']; [|done].
    intros [= <- _]. by exists v.
  - destruct (eval w (f_globals fr) e) as [v|e']; [|done].
    intros [= <- _]. by exists v.
Qed.

Lemma exec_block_app w fr pre post :
  exec_block w fr (pre ++ post)
  = match exec_block w fr pre with
    | (Ok fr1, w1) => exec_block w1 fr1 post
    | (Raise e, w1) => (Raise e, w1)
    end.
Proof.
  revert w fr. induction pre as [|s pre IH]; intros w fr; [done|].
  cbn. destruct (exec_stmt w fr s) as [[fr'|e] w']; [|done]. apply IH.
Qed.

(** The store log of a block that succeeds grows by the block's targets. *)
Lemma exec_block_stores w fr body fr' w' :
  exec_block w fr body = (Ok fr', w') →
  f_stores fr' = f_stores fr ++ targets body.
Proof.
  revert w fr. induction body as [|s body IH]; intros w fr; cbn.
  - intros [= <- _]. by rewrite app_nil_r.
  - destruct (exec_stmt w fr s) as [[fr1|e] w1] eqn:Hs; [|done].
    intros Hrest. apply exec_stmt_store in Hs as [v ->].
    rewrite (IH _ _ Hrest). cbn. by rewrite <- app_assoc.
Qed.

(** A block leaves alone every name that is not among its targets. *)
Lemma exec_block_untouched w fr body fr' w' x :
  exec_block w fr body = (Ok fr', w') →
  x ∉ targets body →
  f_globals fr' !! x = f_globals fr !! x.
Proof.
  revert w fr. induction body as [|s body IH]; intros w fr; cbn.
  - by intros [= <- _].
  - destruct (exec_stmt w fr s) as [[fr1|e] w1] eqn:Hs; [|done].
    intros Hrest [Hx Hbody]%not_elem_of_cons.
    apply exec_stmt_store in Hs as [v ->].
    rewrite (IH _ _ Hrest Hbody). cbn. by rewrite lookup_insert_ne.
Qed.

(** A name bound after a block was bound before it or is one of its
    targets. *)
Lemma exec_block_bound w fr body fr' w' x :
  exec_block w fr body = (Ok fr', w') →
  is_Some (f_globals fr' !! x) →
  is_Some (f_globals fr !! x) ∨ x ∈ targets body.
Proof.
  revert w fr. induction body as [|s body IH]; intros w fr; cbn.
  - intros [= <- _]. auto.
  - destruct (exec_stmt w fr s) as [[fr1|e] w1] eqn:Hs; [|done].
    intros Hrest Hx. apply exec_stmt_store in Hs as [v ->].
    destruct (IH _ _ Hrest Hx) as [Hb|Hb].
    + cbn in Hb. destruct (decide (target s = x)) as [<-|Hne].
      * right. left.
      * rewrite lookup_insert_ne in Hb by done. by left.
    + right. by right.
Qed.

(** The frame a load returns depends on the process only through its
    working directory. *)
Lemma load_frame_cwd w : (load w).1 = (load (fresh (getcwd w))).1.
Proof.
  destruct w as [cwd mods].
  assert (∀ M, (exec_block (World cwd M)
                  (store "os" (VModule "os") empty_frame) (tail conf_py)).1
               = (load (fresh cwd)).1) as Hrest.
  { intros M. vm_compute. reflexivity. }
  unfold load at 1.
  change conf_py with (SImport "os" :: tail conf_py).
  cbn [exec_block exec_stmt]. unfold import_module. cbn [sys_modules getcwd].
  destruct (bool_decide ("os" ∈ mods)); [apply Hrest|].
  change (String.eqb "os" "os") with true. cbn iota. apply Hrest.
Qed.

(** Loading never raises. *)
Lemma load_succeeds w : ∃ fr, (load w).1 = Ok fr.
Proof.
  rewrite load_frame_cwd. generalize (getcwd w). intros cwd.
  eexists. vm_compute. reflexivity.
Qed.

Lemma field_cwd w x : field w x = field (fresh (getcwd w)) x.
Proof.
  unfold field. pose proof (load_frame_cwd w) as H.
  destruct (load w) as [r w1], (load (fresh (getcwd w))) as [r' w2].
  cbn in H. by subst.
Qed.

End exec_facts.

(** * The configuration record *)

(** Evaluates a field of the record for an arbitrary process: the frame
    depends on the process through the working directory only, and the
    module body then runs by computation. *)
Ltac load_field :=
  intros; rewrite field_cwd;
  match goal with |- context [fresh (getcwd ?w)] => generalize (getcwd w) end;
  intros; vm_compute; reflexivity.

Lemma field_matlab_src_dir w :
  field w "matlab_src_dir"
  = Some (VStr (posixpath.abspath (getcwd w) "../../src")).
Proof. load_field. Qed.

(** [matlab_src_dir] does depend on the working directory. *)
Lemma matlab_src_dir_depends_on_cwd :
  field (fresh "/repo/doc/source") "matlab_src_dir"
  ≠ field (fresh "/repo/doc") "matlab_src_dir".
Proof. vm_compute. discriminate. Qed.

(** C1, as stated, fails: loaded from [/tmp], a configuration file that
    lives in [/repo/doc/source] gets [matlab_src_dir = "/src"], not
    [/repo/src], the parent of the parent of its directory joined with
    [src]. *)
Lemma matlab_src_dir_not_from_conf_dir :
  field (fresh "/tmp") "matlab_src_dir" = Some (VStr "/src")
  ∧ spec_matlab_src_dir "/repo/doc/source" = "/repo/src"
  ∧ ¬ matlab_src_dir_follows_conf_dir (fresh "/tmp") "/repo/doc/source".
Proof.
  split; [reflexivity|]. split; [reflexivity|].
  unfold matlab_src_dir_follows_conf_dir. vm_compute. discriminate.
Qed.

(** C1, amended: when the working directory at load time is the directory
    that holds the configuration file, given as a normalised absolute path
    (what [os.getcwd()] returns under Sphinx, which changes into that
    directory before it runs the file), [matlab_src_dir] is the absolute
    path made of the parent of the parent of that directory joined with
    [src]. *)
Theorem matlab_src_dir_under_conf_dir w conf_dir :
  posixpath.isabs conf_dir = true →
  posixpath.normpath conf_dir = conf_dir →
  getcwd w = conf_dir →
  matlab_src_dir_follows_conf_dir w conf_dir
  ∧ posixpath.isabs (spec_matlab_src_dir conf_dir) = true.
Proof.
  intros Habs Hnorm Hcwd. unfold matlab_src_dir_follows_conf_dir.
  rewrite field_matlab_src_dir, Hcwd.
  destruct (normal_absolute_render _ Habs Hnorm) as (k & cs & Hk & Hcs & ->).
  assert (k ≠ 0) as Hk0 by lia.
  rewrite abspath_render, spec_matlab_src_dir_render by done.
  split; [done|]. by apply render_isabs.
Qed.

Lemma matlab_src_dir_under_conf_dir_witness :
  matlab_src_dir_follows_conf_dir
    (fresh "/home/u/Mat4FVCOM/doc/source") "/home/u/Mat4FVCOM/doc/source"
  ∧ posixpath.isabs (spec_matlab_src_dir "/home/u/Mat4FVCOM/doc/source") = true.
Proof.
  apply (matlab_src_dir_under_conf_dir
           (fresh "/home/u/Mat4FVCOM/doc/source")
           "/home/u/Mat4FVCOM/doc/source"); reflexivity.
Defined.

(** What [extensions] holds in the frame of a load. *)
Lemma extensions_value_at cwd :
  match (load (fresh cwd)).1 with
  | Ok fr =>
      f_globals fr !! "extensions"
      = Some (VList [ VStr "sphinxcontrib.matlab"; VStr "sphinx.ext.autodoc";
                      VStr "sphinx.ext.mathjax"; VStr "myst_parser" ])
  | Raise _ => False
  end.
Proof. vm_compute. exact eq_refl. Qed.

(** C2: after loading, [extensions] is the list of exactly four strings
    [sphinxcontrib.matlab], [sphinx.ext.autodoc], [sphinx.ext.mathjax],
    [myst_parser], in this order. *)
Theorem extensions_loaded w :
  field w "extensions"
  = Some (VList [ VStr "sphinxcontrib.matlab"; VStr "sphinx.ext.autodoc";
                  VStr "sphinx.ext.mathjax"; VStr "myst_parser" ]).
Proof. load_field. Qed.

(** C3: after loading, [source_suffix] is a mapping with exactly three
    entries: [.rst] and [.txt] map to [restructuredtext], [.md] maps to
    [markdown], and no other key is bound. *)
Theorem source_suffix_loaded w :
  ∃ d, field w "source_suffix" = Some (VDict d)
    ∧ length d = 3
    ∧ ∀ k, dict_get k d
           = if bool_decide (k = ".rst") then Some (VStr "restructuredtext")
             else if bool_decide (k = ".txt") then Some (VStr "restructuredtext")
             else if bool_decide (k = ".md") then Some (VStr "markdown")
             else None.
Proof.
  exists [ (".rst", VStr "restructuredtext"); (".txt", VStr "restructuredtext");
           (".md", VStr "markdown") ].
  split; [load_field|]. split; [reflexivity|]. intros k.
  cbn [dict_get].
  repeat (case_bool_decide as Hk;
          [subst k; reflexivity
          |apply String.eqb_neq in Hk as ->]).
  reflexivity.
Qed.

(** C4: loading returns a record in which [project] is [Mat4FVCOM],
    [html_theme] is [sphinx_rtd_theme] and [primary_domain] is [mat]. *)
Theorem project_theme_domain_loaded w :
  field w "project" = Some (VStr "Mat4FVCOM")
  ∧ field w "html_theme" = Some (VStr "sphinx_rtd_theme")
  ∧ field w "primary_domain" = Some (VStr "mat").
Proof. repeat split; load_field. Qed.

(** C5: two loads in succession, the second in the process the first one
    leaves behind, both succeed and return the same frame: the same value
    in every field. *)
Theorem load_twice_same w :
  ∃ fr, (load w).1 = Ok fr ∧ (load (load w).2).1 = Ok fr.
Proof.
  destruct (load_succeeds w) as [fr Hfr]. exists fr. split; [done|].
  rewrite load_frame_cwd. unfold load at 2.
  rewrite exec_block_getcwd, <- load_frame_cwd. done.
Qed.

(** The module body binds fifteen names, no name twice. *)
Lemma conf_py_targets_NoDup : NoDup (targets conf_py).
Proof. apply (bool_decide_unpack _). vm_compute. reflexivity. Qed.

(** During a load every field of the record is stored exactly once, and
    once a name is bound its binding stays as it is until the load returns:
    whatever a prefix of the module body has bound is bound to the same
    value in the frame returned. *)
Lemma fields_stored_once w :
  ∃ fr, (load w).1 = Ok fr
    ∧ Forall (λ x, store_count fr x = 1) config_fields
    ∧ ∀ pre post fr1 w1 x v,
        conf_py = pre ++ post →
        exec_block w empty_frame pre = (Ok fr1, w1) →
        f_globals fr1 !! x = Some v →
        f_globals fr !! x = Some v.
Proof.
  destruct (load_succeeds w) as [fr Hfr]. exists fr. split; [done|].
  destruct (load w) as [r w'] eqn:Hload. cbn in Hfr. subst r.
  split.
  - unfold store_count. unfold load in Hload.
    rewrite (exec_block_stores _ _ _ _ _ Hload). cbn [empty_frame f_stores app].
    repeat constructor.
  - intros pre post fr1 w1 x v Hsplit Hpre Hx.
    unfold load in Hload. rewrite Hsplit, exec_block_app, Hpre in Hload.
    assert (x ∈ targets pre) as Hin.
    { destruct (exec_block_bound _ _ _ _ _ x Hpre) as [Hb|Hb]; [by eexists| |done].
      cbn in Hb. rewrite lookup_empty in Hb. by destruct Hb. }
    pose proof conf_py_targets_NoDup as Hnd.
    rewrite Hsplit in Hnd. unfold targets in Hnd. rewrite map_app in Hnd.
    apply NoDup_app in Hnd as (_ & Hdisj & _).
    rewrite (exec_block_untouched _ _ _ _ _ x Hload); [done|].
    by apply Hdisj.
Qed.

(** C7: after loading, [templates_path] holds the one entry [_templates],
    [exclude_patterns] holds no entry, and [html_static_path] holds the one
    entry [_static]. *)
Theorem path_lists_loaded w :
  field w "templates_path" = Some (VList [VStr "_templates"])
  ∧ field w "exclude_patterns" = Some (VList [])
  ∧ field w "html_static_path" = Some (VList [VStr "_static"]).
Proof. repeat split; load_field. Qed.

(** C8: after loading, [language] is the locale code [zh_CN]. *)
Theorem language_loaded w : field w "language" = Some (VStr "zh_CN").
Proof. load_field. Qed.

(** With [matlab_src_dir] taken out, the namespaces of two loads are the
    same map, whatever the two working directories. *)
Lemma frames_agree_off_matlab_src_dir cwd1 cwd2 :
  match (load (fresh cwd1)).1, (load (fresh cwd2)).1 with
  | Ok fr1, Ok fr2 =>
      delete "matlab_src_dir" (f_globals fr1)
      = delete "matlab_src_dir" (f_globals fr2)
  | _, _ => False
  end.
Proof. vm_compute. exact eq_refl. Qed.

(** C9: two loads in processes that differ in any way, their working
    directories included, both succeed and agree on every name other than
    [matlab_src_dir]. *)
Theorem fields_independent_of_cwd w1 w2 x :
  x ≠ "matlab_src_dir" →
  ∃ fr1 fr2, (load w1).1 = Ok fr1 ∧ (load w2).1 = Ok fr2
    ∧ f_globals fr1 !! x = f_globals fr2 !! x.
Proof.
  intros Hx.
  destruct (load_succeeds w1) as [fr1 H1], (load_succeeds w2) as [fr2 H2].
  exists fr1, fr2. split; [done|]. split; [done|].
  pose proof (frames_agree_off_matlab_src_dir (getcwd w1) (getcwd w2)) as Heq.
  rewrite <- !load_frame_cwd, H1, H2 in Heq.
  rewrite <- (lookup_delete_ne (f_globals fr1) "matlab_src_dir" x) by done.
  rewrite <- (lookup_delete_ne (f_globals fr2) "matlab_src_dir" x) by done.
  by rewrite Heq.
Qed.

Lemma fields_independent_of_cwd_witness :
  ∃ fr1 fr2,
    (load (fresh "/repo/doc/source")).1 = Ok fr1
    ∧ (load {| getcwd := "/tmp"; sys_modules := {["os"]} |}).1 = Ok fr2
    ∧ f_globals fr1 !! "extensions" = f_globals fr2 !! "extensions".
Proof.
  apply (fields_independent_of_cwd (fresh "/repo/doc/source")
           {| getcwd := "/tmp"; sys_modules := {["os"]} |} "extensions").
  discriminate.
Defined.

(** C10: after loading, [mathjax_path] is the relative path
    [es5/tex-chtml.js]: it does not start at the root and is not a full
    URI. *)
Theorem mathjax_path_loaded w :
  ∃ s, field w "mathjax_path" = Some (VStr s)
    ∧ s = "es5/tex-chtml.js"
    ∧ posixpath.isabs s = false
    ∧ is_full_uri s = false.
Proof.
  exists "es5/tex-chtml.js". split; [load_field|]. by repeat split.
Qed.

(** * Further facts about [posixpath]: any absolute working directory *)

Section abspath_facts.
Import posixpath.
Implicit Types (s t p q : string) (a c : ascii) (cs acc : list string)
  (k : nat).

#[local] Arguments String.append !_ _ / : simpl nomatch.

Local Abbreviation names := (Forall (λ x, is_name x = true)).

Lemma endswith_char_inv c s :
  pystr.endswith_char c s = true → ∃ p, s = p +:+ String c "".
Proof.
  induction s as [|a s IH]; [done|]. cbn. destruct s as [|b s].
  - intros ->%Ascii.eqb_eq. by exists "".
  - intros [p ->]%IH. by exists (String a p).
Qed.

Lemma initial_slashes_range s :
  isabs s = true → initial_slashes s = 1 ∨ initial_slashes s = 2.
Proof.
  unfold isabs, initial_slashes. intros ->. destruct (_ && _); auto.
Qed.

(** What [normpath] returns on an absolute path: its one or two slashes,
    then the names the loop has kept. *)
Lemma normpath_absolute s :
  isabs s = true →
  normpath s
  = render (initial_slashes s)
      (fold_left (normpath_step (initial_slashes s)) (pystr.split sep s) [])
  ∧ names (fold_left (normpath_step (initial_slashes s)) (pystr.split sep s) []).
Proof.
  intros Habs. pose proof (initial_slashes_range s Habs) as Hk. split.
  - unfold normpath. destruct (String.eqb_spec s "") as [->|_]; [done|].
    replace (initial_slashes s =? 0) with false
      by (symmetry; apply Nat.eqb_neq; lia).
    fold (render (initial_slashes s)
            (fold_left (normpath_step (initial_slashes s)) (pystr.split sep s) [])).
    by rewrite render_not_empty by lia.
  - apply normpath_loop_names; [lia|apply split_parts_no_sep|constructor].
Qed.

(** [normpath] leaves a rendered list of names alone. *)
Lemma normpath_render k cs :
  k = 1 ∨ k = 2 → names cs → normpath (render k cs) = render k cs.
Proof.
  intros Hk Hall. assert (k ≠ 0) as Hk0 by lia.
  assert (pystr.startswith "/" (pystr.join sep cs) = false) as Hfirst.
  { destruct cs as [|x cs]; [done|].
    rewrite <- (sapp_nil_r (pystr.join sep (x :: cs))).
    by apply join_names_first. }
  unfold normpath. rewrite render_not_empty by done. unfold render.
  rewrite initial_slashes_render, split_leading_seps by done.
  rewrite normpath_loop_empties.
  assert (fold_left (normpath_step k) (pystr.split sep (pystr.join sep cs)) []
          = cs) as ->.
  { destruct cs as [|x cs]; [done|].
    rewrite split_join by (done || by apply names_no_sep).
    by rewrite normpath_loop_on_names. }
  apply Nat.eqb_neq in Hk0 as ->.
  fold (render k cs). by rewrite render_not_empty by lia.
Qed.

(** Joining a relative path to an absolute directory keeps the leading
    slashes as [normpath] counts them. *)
Lemma initial_slashes_join cwd p :
  isabs cwd = true → pystr.startswith "/" p = false →
  initial_slashes (join cwd p) = initial_slashes cwd.
Proof.
  intros Habs Hp. unfold join. rewrite Hp.
  destruct cwd as [|c1 r1]; [done|].
  unfold isabs in Habs. rewrite startswith_char in Habs.
  apply Ascii.eqb_eq in Habs as <-.
  change (String.eqb (String "/" r1) "") with false. cbn [orb].
  destruct r1 as [|c2 r2].
  - change (pystr.endswith_char sep "/") with true. cbn iota.
    apply (initial_slashes_render 1 p); auto.
  - destruct (Ascii.eqb_spec "/" c2) as [<-|Hc2].
    + destruct r2 as [|c3 r3].
      * change (pystr.endswith_char sep "//") with true. cbn iota.
        apply (initial_slashes_render 2 p); auto.
      * by destruct (pystr.endswith_char sep _).
    + apply Ascii.eqb_neq in Hc2.
      destruct (pystr.endswith_char sep _); unfold initial_slashes;
        cbn [String.append pystr.startswith]; rewrite Hc2; reflexivity.
Qed.

(** The components of a joined path are those of the directory, but for a
    trailing empty one, followed by those of the relative path. *)
Lemma normpath_loop_join k cwd p :
  cwd ≠ "" → pystr.startswith "/" p = false →
  fold_left (normpath_step k) (pystr.split sep (join cwd p)) []
  = fold_left (normpath_step k) (pystr.split sep p)
      (fold_left (normpath_step k) (pystr.split sep cwd) []).
Proof.
  intros Hne Hp. unfold join. rewrite Hp.
  apply String.eqb_neq in Hne as ->. cbn [orb].
  destruct (pystr.endswith_char sep cwd) eqn:Hend.
  - apply endswith_char_inv in Hend as [c' ->].
    rewrite sapp_assoc. cbn [String.append].
    rewrite !split_app_sep, !fold_left_app. reflexivity.
  - change ("/" +:+ p) with (String sep p).
    by rewrite split_app_sep, fold_left_app.
Qed.

(** [abspath] of [../../src] in any absolute working directory, in terms
    of the names [normpath] keeps of that directory. *)
Lemma abspath_absolute cwd :
  isabs cwd = true →
  abspath cwd "../../src"
  = render (initial_slashes cwd)
      (removelast (removelast
         (fold_left (normpath_step (initial_slashes cwd))
            (pystr.split sep cwd) [])) ++ ["src"]).
Proof.
  intros Habs. pose proof (initial_slashes_range cwd Habs) as Hk.
  destruct (normpath_absolute cwd Habs) as [_ Hacc].
  set (k := initial_slashes cwd) in *.
  set (acc := fold_left (normpath_step k) (pystr.split sep cwd) []) in *.
  assert (cwd ≠ "") as Hne by by destruct cwd.
  assert (isabs (join cwd "../../src") = true) as Habs'.
  { unfold join. change (pystr.startswith "/" "../../src") with false.
    cbn iota. destruct cwd; [done|]. by destruct (_ || _). }
  unfold abspath. change (pystr.startswith "/" "../../src") with false.
  cbn [negb].
  destruct (normpath_absolute _ Habs') as [-> _].
  rewrite initial_slashes_join by done. fold k.
  rewrite normpath_loop_join by done. fold acc.
  change (pystr.split sep "../../src") with [".."; ".."; "src"].
  cbn [fold_left].
  rewrite (normpath_step_dotdot k acc) by (done || lia).
  rewrite normpath_step_dotdot by (auto using names_removelast || lia).
  by rewrite normpath_step_name.
Qed.

End abspath_facts.

(** * Further facts about the evaluator *)

Section eval_facts.
Implicit Types (w : world) (fr : frame) (body : list stmt) (x : string)
  (ns : gmap string value).

(** Induction on expressions that reaches the items of list displays, the
    values of dict displays and the arguments of calls. *)
Lemma expr_nested_ind (P : expr → Prop) :
  (∀ s, P (EStr s)) →
  (∀ items, Forall P items → P (EList items)) →
  (∀ entries, Forall (λ kv, P kv.2) entries → P (EDict entries)) →
  (∀ id, P (EName id)) →
  (∀ e attr, P e → P (EAttr e attr)) →
  (∀ f args, P f → Forall P args → P (ECall f args)) →
  ∀ e, P e.
Proof.
  intros HStr HList HDict HName HAttr HCall.
  fix IH 1. intros [s|items|entries|id|e attr|f args].
  - apply HStr.
  - apply HList. induction items as [|e items IHitems]; constructor.
    + apply IH.
    + apply IHitems.
  - apply HDict. induction entries as [|[k e] entries IHentries]; constructor.
    + apply IH.
    + apply IHentries.
  - apply HName.
  - apply HAttr, IH.
  - apply HCall; [apply IH|].
    induction args as [|e args IHargs]; constructor.
    + apply IH.
    + apply IHargs.
Qed.

(** A literal expression has one value: evaluation returns it in every
    process and every namespace, and never raises. *)
Lemma eval_literal e :
  literal e = true → ∃ v, ∀ w ns, eval w ns e = Ok v.
Proof.
  induction e as [s|items IH|entries IH|id|e attr _|f args _ _]
    using expr_nested_ind; try done.
  - intros _. by exists (VStr s).
  - intros Hlit.
    assert (∃ vs, ∀ w ns,
      (fix eval_items (es : list expr) : result (list value) :=
         match es with
         | [] => Ok []
         | e :: es' =>
             let* v := eval w ns e in
             let* vs := eval_items es' in Ok (v :: vs)
         end) items = Ok vs) as [vs Hvs].
    { induction IH as [|e items He _ IHitems]; [by exists []|].
      cbn in Hlit. apply andb_true_iff in Hlit as [Hlit1 Hlit2].
      destruct (He Hlit1) as [v Hv], (IHitems Hlit2) as [vs Hvs].
      exists (v :: vs). intros w ns. by rewrite Hv; cbn; rewrite Hvs. }
    exists (VList vs). intros w ns. cbn [eval]. by rewrite Hvs.
  - intros Hlit.
    assert (∀ d, ∃ d', ∀ w ns,
      (fix eval_entries (es : list (string * expr))
           (d : list (string * value)) : result (list (string * value)) :=
         match es with
         | [] => Ok d
         | (k, e) :: es' =>
             let* v := eval w ns e in eval_entries es' (dict_set k v d)
         end) entries d = Ok d') as Hgo.
    { induction IH as [|[k e] entries He _ IHentries]; intros d;
        [by exists d|].
      cbn in Hlit. apply andb_true_iff in Hlit as [Hlit1 Hlit2].
      destruct (He Hlit1) as [v Hv].
      destruct (IHentries Hlit2 (dict_set k v d)) as [d' Hd'].
      exists d'. intros w ns. by rewrite Hv; cbn; rewrite Hd'. }
    destruct (Hgo []) as [d' Hd']. exists (VDict d').
    intros w ns. cbn [eval]. by rewrite Hd'.
Qed.

(** An assignment of a literal stores one and the same value whatever the
    process and the frame, and leaves the process as it is. *)
Lemma literal_stmt_constant s :
  literal_stmt s = true →
  ∃ v, ∀ w fr, exec_stmt w fr s = (Ok (store (target s) v fr), w).
Proof.
  destruct s as [m|x e]; [done|]. cbn. intros [v Hv]%eval_literal.
  exists v. intros w fr. by rewrite Hv.
Qed.

(** Assignments leave the process as it is, also when they raise. *)
Lemma exec_block_assign_world w fr body :
  forallb is_assign body = true → (exec_block w fr body).2 = w.
Proof.
  revert fr. induction body as [|s body IH]; intros fr; [done|].
  cbn. intros [Hs Hbody]%andb_true_iff.
  destruct s as [m|x e]; [done|]. cbn.
  destruct (eval w (f_globals fr) e); [by apply IH|done].
Qed.


End eval_facts.

(** * More about the configuration record *)

(** The project metadata that is left: after loading, [copyright] is
    [2025, li12242], [author] is [li12242] and [release] is [v1]. *)
Theorem metadata_loaded w :
  field w "copyright" = Some (VStr "2025, li12242")
  ∧ field w "author" = Some (VStr "li12242")
  ∧ field w "release" = Some (VStr "v1").
Proof. repeat split; load_field. Qed.





(** What a load does to the process: the working directory stays as it is,
    [os] is cached afterwards, and nothing that was cached is dropped. *)
Theorem load_process_effect w :
  getcwd (load w).2 = getcwd w
  ∧ "os" ∈ sys_modules (load w).2
  ∧ sys_modules w ⊆ sys_modules (load w).2.
Proof.
  split; [apply exec_block_getcwd|].
  unfold load. change conf_py with (SImport "os" :: tail conf_py).
  cbn [exec_block exec_stmt]. unfold import_module.
  case_bool_decide as Hos.
  - rewrite exec_block_assign_world by reflexivity. done.
  - change (String.eqb "os" "os") with true. cbn iota.
    rewrite exec_block_assign_world by reflexivity. cbn [sys_modules].
    split; [apply elem_of_union_l, elem_of_singleton_2; reflexivity|].
    apply union_subseteq_r.
Qed.

(** Every statement of the module body other than the import and the
    assignment to [matlab_src_dir] is an assignment of a constant: it
    stores the same value in every process and every frame, never raises
    and leaves the process as it is. *)
Theorem conf_py_constant_assignments i s :
  conf_py !! i = Some s →
  target s ≠ "os" →
  target s ≠ "matlab_src_dir" →
  ∃ v, ∀ w fr, exec_stmt w fr s = (Ok (store (target s) v fr), w).
Proof.
  intros Hi Hos Hsrc. apply literal_stmt_constant.
  assert (Forall (λ s, literal_stmt s = true ∨ target s = "os"
                       ∨ target s = "matlab_src_dir") conf_py) as Hall.
  { unfold conf_py. repeat (constructor; [cbn; auto|]). constructor. }
  rewrite Forall_lookup in Hall.
  destruct (Hall i s Hi) as [?|[?|?]]; done.
Qed.

Lemma conf_py_constant_assignments_witness :
  ∃ v, ∀ w fr,
    exec_stmt w fr (SAssign "language" (EStr "zh_CN"))
    = (Ok (store "language" v fr), w).
Proof.
  apply (conf_py_constant_assignments 12 (SAssign "language" (EStr "zh_CN")));
    [reflexivity|discriminate|discriminate].
Defined.

(** In every process whose working directory is absolute, [matlab_src_dir]
    is the parent of the parent of the normalised working directory joined
    with [src]: the working directory need not be normalised itself. *)
Theorem matlab_src_dir_from_cwd w :
  posixpath.isabs (getcwd w) = true →
  field w "matlab_src_dir"
  = Some (VStr (spec_matlab_src_dir (posixpath.normpath (getcwd w)))).
Proof.
  intros Habs. rewrite field_matlab_src_dir, abspath_absolute by done.
  destruct (normpath_absolute _ Habs) as [-> Hacc].
  pose proof (initial_slashes_range _ Habs).
  by rewrite spec_matlab_src_dir_render by (done || lia).
Qed.

Lemma matlab_src_dir_from_cwd_witness :
  field (fresh "/repo//doc/./source/") "matlab_src_dir"
  = Some (VStr (spec_matlab_src_dir
                  (posixpath.normpath "/repo//doc/./source/"))).
Proof.
  apply (matlab_src_dir_from_cwd (fresh "/repo//doc/./source/")). reflexivity.
Defined.

(** In every process whose working directory is absolute, [matlab_src_dir]
    is an absolute path that [normpath] leaves alone, so that resolving it
    again, from any directory, gives it back. *)
Theorem matlab_src_dir_absolute_normal w :
  posixpath.isabs (getcwd w) = true →
  ∃ p, field w "matlab_src_dir" = Some (VStr p)
    ∧ posixpath.isabs p = true
    ∧ posixpath.normpath p = p
    ∧ ∀ cwd, posixpath.abspath cwd p = p.
Proof.
  intros Habs. eexists. split; [apply field_matlab_src_dir|].
  rewrite abspath_absolute by done.
  destruct (normpath_absolute _ Habs) as [_ Hacc].
  pose proof (initial_slashes_range _ Habs) as Hk.
  set (k := posixpath.initial_slashes (getcwd w)) in *.
  set (cs := removelast (removelast _) ++ ["src"]).
  assert (Forall (λ x, is_name x = true) cs) as Hcs.
  { apply Forall_app. split; [by do 2 apply names_removelast|].
    by constructor. }
  assert (posixpath.isabs (render k cs) = true) as Hp
    by (apply render_isabs; lia).
  assert (posixpath.normpath (render k cs) = render k cs) as Hn
    by by apply normpath_render.
  split; [done|]. split; [done|]. intros cwd.
  unfold posixpath.abspath. unfold posixpath.isabs in Hp. by rewrite Hp.
Qed.

Lemma matlab_src_dir_absolute_normal_witness :
  ∃ p, field (fresh "/tmp") "matlab_src_dir" = Some (VStr p)
    ∧ posixpath.isabs p = true
    ∧ posixpath.normpath p = p
    ∧ ∀ cwd, posixpath.abspath cwd p = p.
Proof.
  apply (matlab_src_dir_absolute_normal (fresh "/tmp")). reflexivity.
Defined.

(** In every process whose working directory is absolute, the last
    component of [matlab_src_dir] is [src]. *)
Theorem matlab_src_dir_ends_in_src w :
  posixpath.isabs (getcwd w) = true →
  ∃ p, field w "matlab_src_dir" = Some (VStr p)
    ∧ last (pystr.split posixpath.sep p) = Some "src".
Proof.
  intros Habs. eexists. split; [apply field_matlab_src_dir|].
  rewrite abspath_absolute by done.
  destruct (normpath_absolute _ Habs) as [_ Hacc].
  set (k := posixpath.initial_slashes (getcwd w)) in *.
  set (cs := removelast (removelast _)).
  assert (Forall (λ x, is_name x = true) (cs ++ ["src"])) as Hcs.
  { apply Forall_app. split; [by do 2 apply names_removelast|].
    by constructor. }
  unfold render. rewrite split_leading_seps.
  rewrite split_join.
  - by rewrite app_assoc, last_snoc.
  - by intros [_ [=]]%app_eq_nil.
  - by apply names_no_sep.
Qed.

Lemma matlab_src_dir_ends_in_src_witness :
  ∃ p, field (fresh "/") "matlab_src_dir" = Some (VStr p)
    ∧ last (pystr.split posixpath.sep p) = Some "src".
Proof.
  apply (matlab_src_dir_ends_in_src (fresh "/")). reflexivity.
Defined.

(** When the working directory is at most two levels below the root,
    [matlab_src_dir] is [/src]: with fewer than two levels the [..] stop at
    the root, and nothing is raised. *)
Theorem matlab_src_dir_shallow_cwd w cs :
  Forall (λ x, is_name x = true) cs →
  length cs ≤ 2 →
  getcwd w = render 1 cs →
  field w "matlab_src_dir" = Some (VStr "/src").
Proof.
  intros Hcs Hlen Hcwd. rewrite field_matlab_src_dir, Hcwd.
  rewrite abspath_render by auto.
  by destruct cs as [|x [|y [|z cs]]]; [..|cbn in Hlen; lia].
Qed.

Lemma matlab_src_dir_shallow_cwd_witness :
  field (fresh "/tmp") "matlab_src_dir" = Some (VStr "/src").
Proof.
  apply (matlab_src_dir_shallow_cwd (fresh "/tmp") ["tmp"]);
    [by repeat constructor|cbn; lia|reflexivity].
Defined.

(** * The record after the load *)

Section mutation_facts.
Implicit Types (fr : frame) (m : mutation) (x : string).

(** A change in place is no store. *)
Lemma mutate_stores fr m fr' : mutate fr m = Ok fr' → f_stores fr' = f_stores fr.
Proof.
  destruct m as [y v|y k v]; cbn;
    destruct (f_globals fr !! y) as [[]|]; try done; by intros [= <-].
Qed.

(** No change in place alters a name that holds a string: a string has no
    [append] and takes no item assignment. *)
Lemma mutate_keeps_strings fr m fr' x s :
  mutate fr m = Ok fr' →
  f_globals fr !! x = Some (VStr s) →
  f_globals fr' !! x = Some (VStr s).
Proof.
  destruct m as [y v|y k v]; cbn;
    destruct (f_globals fr !! y) as [[]|] eqn:Hy; try done;
    intros [= <-] Hx; cbn;
    (destruct (decide (y = x)) as [->|Hne];
     [congruence|by rewrite lookup_insert_ne]).
Qed.

(** A list takes [append]. *)
Lemma mutate_append fr x items v :
  f_globals fr !! x = Some (VList items) →
  ∃ fr', mutate fr (MAppend x v) = Ok fr'
    ∧ f_globals fr' !! x = Some (VList (items ++ [v])).
Proof.
  intros Hx. eexists. cbn. rewrite Hx. split; [done|].
  cbn. apply lookup_insert_eq.
Qed.

(** A dict takes an item assignment. *)
Lemma mutate_setitem fr x d k v :
  f_globals fr !! x = Some (VDict d) →
  ∃ fr', mutate fr (MSetItem x k v) = Ok fr'
    ∧ f_globals fr' !! x = Some (VDict (dict_set k v d)).
Proof.
  intros Hx. eexists. cbn. rewrite Hx. split; [done|].
  cbn. apply lookup_insert_eq.
Qed.

(** The kinds of the values a load binds: nine strings, four lists, one
    dict. *)
Lemma loaded_kinds cwd :
  match (load (fresh cwd)).1 with
  | Ok fr =>
      forallb (λ x, holds_str (f_globals fr !! x)) string_fields
      && forallb (λ x, holds_list (f_globals fr !! x)) list_fields
      && holds_dict (f_globals fr !! "source_suffix") = true
  | Raise _ => False
  end.
Proof. vm_compute. exact eq_refl. Qed.

End mutation_facts.

(** C6, as stated, fails: the record a load returns is not read-only.
    [extensions] holds a list, and appending to it after the load goes
    through and changes the field, with no further store. *)
Lemma record_not_read_only_after_load :
  ¬ stored_once_and_read_only (fresh "/repo/doc/source").
Proof.
  intros (fr & Hfr & _ & Hro).
  destruct (mutate_append fr "extensions"
              [ VStr "sphinxcontrib.matlab"; VStr "sphinx.ext.autodoc";
                VStr "sphinx.ext.mathjax"; VStr "myst_parser" ]
              (VStr "sphinx.ext.todo")) as (fr' & Hm & Hnew).
  { pose proof (extensions_value_at "/repo/doc/source") as Hx.
    rewrite Hfr in Hx. exact Hx. }
  pose proof (extensions_value_at "/repo/doc/source") as Hold.
  rewrite Hfr in Hold.
  rewrite (Hro _ _ Hm), Hold in Hnew. discriminate.
Qed.

(** C6, amended: during a load every field of the record is stored exactly
    once, and the module body never changes a field once it is bound.
    After the load the record is read-only as far as its values are: no
    change in place stores to a name or alters one of the nine fields that
    hold a string, while the four fields that hold a list take [append] and
    [source_suffix], which holds a dict, takes an item assignment. *)
Theorem fields_stored_once_strings_frozen w :
  ∃ fr, (load w).1 = Ok fr
    ∧ Forall (λ x, store_count fr x = 1) config_fields
    ∧ (∀ pre post fr1 w1 x v,
         conf_py = pre ++ post →
         exec_block w empty_frame pre = (Ok fr1, w1) →
         f_globals fr1 !! x = Some v →
         f_globals fr !! x = Some v)
    ∧ (∀ m fr', mutate fr m = Ok fr' →
         f_stores fr' = f_stores fr
         ∧ Forall (λ x, f_globals fr' !! x = f_globals fr !! x) string_fields)
    ∧ Forall (λ x, ∃ items, f_globals fr !! x = Some (VList items)
                 ∧ ∀ v, ∃ fr', mutate fr (MAppend x v) = Ok fr'
                      ∧ f_globals fr' !! x = Some (VList (items ++ [v])))
        list_fields
    ∧ ∃ d, f_globals fr !! "source_suffix" = Some (VDict d)
        ∧ ∀ k v, ∃ fr', mutate fr (MSetItem "source_suffix" k v) = Ok fr'
            ∧ f_globals fr' !! "source_suffix" = Some (VDict (dict_set k v d)).
Proof.
  destruct (fields_stored_once w) as (fr & Hfr & Honce & Hstable).
  exists fr. split; [done|]. split; [done|]. split; [done|].
  pose proof (loaded_kinds (getcwd w)) as Hkinds.
  rewrite <- load_frame_cwd, Hfr in Hkinds.
  apply andb_true_iff in Hkinds as [[Hstr Hlist]%andb_true_iff Hdict].
  rewrite forallb_forall in Hstr. rewrite forallb_forall in Hlist.
  split; [|split].
  - intros m fr' Hm. split; [by eapply mutate_stores|].
    apply Forall_forall. intros x Hx%list_elem_of_In%Hstr.
    destruct (f_globals fr !! x) as [[s| | | |]|] eqn:Hlook; try done.
    by eapply mutate_keeps_strings.
  - apply Forall_forall. intros x Hx%list_elem_of_In%Hlist.
    destruct (f_globals fr !! x) as [[|items| | |]|] eqn:Hlook; try done.
    exists items. split; [done|]. intros v. by apply mutate_append.
  - destruct (f_globals fr !! "source_suffix") as [[| |d| |]|] eqn:Hlook;
      try done.
    exists d. split; [done|]. intros k v. by apply mutate_setitem.
Qed.
